(** * DAPjs transports: the HID and USB packet back ends

    A shallow embedding of the two transport classes, [HID] (over node-hid)
    and [USB] ([src/transport/usb.ts], over node-usb).

    Each transport method builds a JavaScript promise around one call to a
    native driver (node-hid or node-usb).  The driver itself is not part of
    the sources, so every method of the model takes the driver's answer as an
    argument and returns

    - the new value of the instance ([this]),
    - the driver calls it issued, in order, with their arguments,
    - the final state of the promise it returned.

    Synchronous driver calls either return or throw; asynchronous ones hand
    [(error, data)] to a completion callback that runs after the promise
    executor has returned.  The callbacks test [if (error)]: an error
    argument counts only when it is a truthy value.  An exception thrown while the executor runs
    rejects the promise; an exception thrown by a completion callback does
    not: nothing settles the promise and the exception is left uncaught. *)

From Stdlib Require Import ZArith.
From Stdlib.Strings Require Import Byte.
From stdpp Require Import base decidable option list strings.
From Equations Require Import Equations.

Local Open Scope string_scope.
Local Open Scope list_scope.
Local Open Scope Z_scope.

(** ** JavaScript values shared by both back ends *)

(** Values that are thrown or passed to [reject]. *)
Inductive Err : Type :=
| DriverError (msg : string)   (* an Error object produced by the native driver *)
| JsError (msg : string)       (* [new Error(msg)] *)
| JsString (s : string)        (* a plain string, as in [reject("...")] *)
| TypeError.                   (* a property read on [null] or [undefined] *)

(** JavaScript truthiness of such a value: objects are truthy, a string is
    truthy unless it is empty. *)
Definition truthy (e : Err) : bool :=
  match e with
  | JsString s => negb (String.eqb s "")
  | _ => true
  end.

(** [if (error)] on a callback's error argument: [None] stands for
    [undefined] or [null]; the result is the error the branch is taken
    with, if it is taken. *)
Definition ifError (error : option Err) : option Err :=
  match error with
  | Some e => if truthy e then Some e else None
  | None => None
  end.

(** The state a promise ends in. *)
Inductive Promise (A : Type) : Type :=
| Fulfilled (value : A)        (* [resolve(value)] was called *)
| Rejected (reason : Err)      (* [reject(reason)] was called, or the executor threw *)
| PendingUncaught (ex : Err).  (* a completion callback threw: never settled *)
Arguments Fulfilled {A} value.
Arguments Rejected {A} reason.
Arguments PendingUncaught {A} ex.

(** A synchronous driver call returns a value or throws. *)
Inductive SyncResp (A : Type) : Type :=
| Returns (value : A)
| Throws (ex : Err).
Arguments Returns {A} value.
Arguments Throws {A} ex.

(** [BufferSource = ArrayBuffer | ArrayBufferView]; a view is a window
    [byteOffset, byteOffset + byteLength) on its backing [buffer]. *)
Inductive BufferSource : Type :=
| ArrayBuffer (bytes : list byte)
| ArrayBufferView (buffer : list byte) (byteOffset byteLength : nat).

(** [isView(source) ? source.buffer : source], the expression both back ends
    start from: a view is replaced by its whole backing buffer, whatever its
    offset and length are. *)
Definition arrayBufferOf (source : BufferSource) : list byte :=
  match source with
  | ArrayBuffer bytes => bytes
  | ArrayBufferView buffer _ _ => buffer
  end.

(** What an operation did: new instance, driver calls, promise. *)
Record Result (S C A : Type) : Type := mkResult {
  state : S;
  calls : list C;
  promise : Promise A
}.
Arguments mkResult {S C A} state calls promise.
Arguments state {S C A} r.
Arguments calls {S C A} r.
Arguments promise {S C A} r.

(** ** HID back end *)

Module HID.

Definition PACKET_SIZE : nat := 64.

(** A node-hid device object, identified by the path it was opened on. *)
Record Device : Type := mkDevice { devicePath : string }.

Inductive DriverCall : Type :=
| NewDevice (path : string)
| DeviceClose (d : Device)
| DeviceRead (d : Device)
| DeviceWrite (d : Device) (array : list byte).

(** Fields of the class; [os] is initialised from [platform()]. *)
Record t : Type := mkHID {
  os : string;
  device : option Device;
  path : string
}.

Definition constructor (platform path : string) : t :=
  {| os := platform; device := None; path := path |}.

Definition setDevice (d : option Device) (s : t) : t :=
  {| os := os s; device := d; path := path s |}.

(** [open]: an empty path is rejected before the driver is touched; a
    constructor that throws is caught and turned into a rejection. *)
Definition open (drv : SyncResp Device) (s : t) : Result t DriverCall unit :=
  if (String.length (path s) =? 0)%nat
  then mkResult s [] (Rejected (JsString "No path specified"))
  else match drv with
       | Returns d => mkResult (setDevice (Some d) s) [NewDevice (path s)] (Fulfilled tt)
       | Throws ex => mkResult s [NewDevice (path s)] (Rejected ex)
       end.

(** [close]: the driver is called only while a device is attached. *)
Definition close (drv : SyncResp unit) (s : t) : Result t DriverCall unit :=
  match device s with
  | Some d =>
      match drv with
      | Returns _ => mkResult (setDevice None s) [DeviceClose d] (Fulfilled tt)
      | Throws ex => mkResult s [DeviceClose d] (Rejected ex)
      end
  | None => mkResult s [] (Fulfilled tt)
  end.

(** [read]: the callback receives [(error, data)] and tests [if (error)]. *)
Definition read (drv : option Err * list byte) (s : t)
  : Result t DriverCall (list byte) :=
  match device s with
  | None => mkResult s [] (Rejected TypeError)
  | Some d =>
      match ifError (fst drv) with
      | Some error => mkResult s [DeviceRead d] (Rejected error)
      | None => mkResult s [DeviceRead d] (Fulfilled (snd drv))
      end
  end.

(** [while (array.length < PACKET_SIZE) array.push(0);] *)
Equations? padLoop (array : list byte) : list byte
  by wf (PACKET_SIZE - length array)%nat lt :=
  padLoop array with decide (length array < PACKET_SIZE)%nat := {
    | left _ => padLoop (array ++ [x00]);
    | right _ => array }.
Proof. rewrite length_app; simpl; lia. Qed.

(** The array handed to [device.write], lines 107 to 117 of [write]. *)
Definition frame (os : string) (data : BufferSource) : list byte :=
  let arrayBuffer := arrayBufferOf data in
  let array := padLoop arrayBuffer in
  if String.eqb os "win32" then x00 :: array else array.

(** [write]: the driver's return value (a byte count) is ignored; the
    promise resolves unless the driver call throws inside the executor. *)
Definition write (drv : SyncResp Z) (data : BufferSource) (s : t)
  : Result t DriverCall unit :=
  let array := frame (os s) data in
  match device s with
  | None => mkResult s [] (Rejected TypeError)
  | Some d =>
      match drv with
      | Returns _ => mkResult s [DeviceWrite d array] (Fulfilled tt)
      | Throws ex => mkResult s [DeviceWrite d array] (Rejected ex)
      end
  end.

End HID.

(** ** The node-usb objects the USB back end reads *)

(** [endpoint.direction] is ["in"] or ["out"], from the address's top bit. *)
Inductive Direction : Type := DirIn | DirOut.

#[global] Instance Direction_eq_dec : EqDecision Direction.
Proof. solve_decision. Defined.

Module Endpoint.
Record Descriptor : Type := mkDescriptor {
  bEndpointAddress : Z;
  wMaxPacketSize : Z
}.
Record t : Type := mkEndpoint {
  direction : Direction;
  descriptor : Descriptor
}.
End Endpoint.

Module Interface.
Record Descriptor : Type := mkDescriptor { bInterfaceClass : Z }.
(** [interfaceNumber] is where node-usb stores the interface number.
    [interface] is the value of the property of that name, the one the USB
    class reads: a number when the object carries such a property, [None]
    ([undefined]) when it does not; the objects node-usb builds do not. *)
Record t : Type := mkInterface {
  interfaceNumber : Z;
  interface : option Z;
  descriptor : Descriptor;
  endpoints : list Endpoint.t
}.
End Interface.

Module Device.
Record t : Type := mkDevice { interfaces : list Interface.t }.
End Device.

(** ** USB back end *)

Module USB.

Definition DEFAULT_CLASS : Z := 0xFF.
Definition PACKET_SIZE : Z := 64.

Definition GET_REPORT : Z := 0x01.
Definition SET_REPORT : Z := 0x09.
Definition OUT_REPORT : Z := 0x200.
Definition IN_REPORT : Z := 0x100.

(** Imported from node-usb; the values are libusb's. *)
Definition LIBUSB_REQUEST_TYPE_CLASS : Z := 0x20.
Definition LIBUSB_RECIPIENT_INTERFACE : Z := 0x01.
Definition LIBUSB_ENDPOINT_IN : Z := 0x80.
Definition LIBUSB_ENDPOINT_OUT : Z := 0x00.

(** Fifth argument of [controlTransfer]: a length to read or data to send. *)
Inductive DataOrLength : Type :=
| Length (n : Z)
| Data (bytes : list byte).

Inductive DriverCall : Type :=
| DeviceOpen
| SetConfiguration (desired : Z)
| DeviceClose
| InTransfer (ep : Endpoint.t) (length : Z)
| OutTransfer (ep : Endpoint.t) (buffer : list byte)
| ControlTransfer (bmRequestType bRequest wValue : Z) (wIndex : option Z)
                  (data_or_length : DataOrLength).

(** Fields of the class.  [interface] is [undefined] and the endpoints are
    unset until [open] assigns them. *)
Record t : Type := mkUSB {
  device : Device.t;
  interfaceClass : Z;
  interface : option Interface.t;
  endpointIn : option Endpoint.t;
  endpointOut : option Endpoint.t
}.

Definition constructor (device : Device.t) (interfaceClass : option Z) : t :=
  {| device := device;
     interfaceClass := default DEFAULT_CLASS interfaceClass;
     interface := None; endpointIn := None; endpointOut := None |}.

Definition setInterface (i : option Interface.t) (s : t) : t :=
  {| device := device s; interfaceClass := interfaceClass s;
     interface := i; endpointIn := endpointIn s; endpointOut := endpointOut s |}.

Definition setEndpointIn (e : option Endpoint.t) (s : t) : t :=
  {| device := device s; interfaceClass := interfaceClass s;
     interface := interface s; endpointIn := e; endpointOut := endpointOut s |}.

Definition setEndpointOut (e : option Endpoint.t) (s : t) : t :=
  {| device := device s; interfaceClass := interfaceClass s;
     interface := interface s; endpointIn := endpointIn s; endpointOut := e |}.

(** [new DataView(new Uint8Array(buffer).buffer)]: the same bytes. *)
Definition bufferToDataView (buffer : list byte) : list byte := buffer.

(** [new Buffer(isView(bufferSource) ? bufferSource.buffer : bufferSource)] *)
Definition bufferSourceToBuffer (bufferSource : BufferSource) : list byte :=
  arrayBufferOf bufferSource.

(** [ArrayBuffer.prototype.slice(begin)] with [end] omitted: a negative
    [begin] counts from the end, and the start is clamped to the buffer. *)
Definition arrayBuffer_slice (arrayBuffer : list byte) (begin : Z) : list byte :=
  let len := Z.of_nat (length arrayBuffer) in
  let first := if begin <? 0 then Z.max (len + begin) 0 else Z.min begin len in
  drop (Z.to_nat first) arrayBuffer.

Definition sliceBuffer (data : BufferSource) (packetSize : Z) : BufferSource :=
  let arrayBuffer := arrayBufferOf data in
  let length := Z.min (Z.of_nat (length arrayBuffer)) packetSize in
  ArrayBuffer (arrayBuffer_slice arrayBuffer length).

(** The [filter] of [open]: interfaces of the configured class. *)
Definition matching (s : t) : list Interface.t :=
  filter (λ iface, Interface.bInterfaceClass (Interface.descriptor iface)
                   = interfaceClass s)
         (Device.interfaces (device s)).

(** Body of the [forEach] of [open]. *)
Definition assignEndpoint (s : t) (endpoint : Endpoint.t) : t :=
  match Endpoint.direction endpoint with
  | DirIn => setEndpointIn (Some endpoint) s
  | DirOut => setEndpointOut (Some endpoint) s
  end.

(** What the callback given to [setConfiguration] does to the promise. *)
Inductive Completion : Type :=
| CallsResolve
| CallsReject (reason : Err)
| ThrowsError (ex : Err).

(** The callback of [setConfiguration], lines 96 to 113. *)
Definition openCallback (error : option Err) (s : t) : t * Completion :=
  match ifError error with
  | Some e => (s, CallsReject e)
  | None =>
      match matching s with
      | [] => (s, ThrowsError (JsError "No HID interfaces found."))
      | iface :: _ =>
          let s1 := setInterface (Some iface) s in
          (foldl assignEndpoint s1 (Interface.endpoints iface), CallsResolve)
      end
  end.

(** The callback runs after the executor has returned, so its exception
    is not turned into a rejection. *)
Definition settle (c : Completion) : Promise unit :=
  match c with
  | CallsResolve => Fulfilled tt
  | CallsReject reason => Rejected reason
  | ThrowsError ex => PendingUncaught ex
  end.

(** [open]: [drvOpen] is the outcome of [device.open()], [drvConfig] the
    error handed to the callback of [setConfiguration]. *)
Definition open (drvOpen : SyncResp unit) (drvConfig : option Err) (s : t)
  : Result t DriverCall unit :=
  let s0 := setEndpointOut None (setEndpointIn None s) in
  match drvOpen with
  | Throws ex => mkResult s0 [DeviceOpen] (Rejected ex)
  | Returns _ =>
      let '(s1, c) := openCallback drvConfig s0 in
      mkResult s1 [DeviceOpen; SetConfiguration 1] (settle c)
  end.

(** [close] touches no field of the instance. *)
Definition close (drv : SyncResp unit) (s : t) : Result t DriverCall unit :=
  match drv with
  | Returns _ => mkResult s [DeviceClose] (Fulfilled tt)
  | Throws ex => mkResult s [DeviceClose] (Rejected ex)
  end.

(** The callbacks of [read]: [(error, data)]. *)
Definition readCallback (drv : option Err * list byte) : Promise (list byte) :=
  match ifError (fst drv) with
  | Some error => Rejected error
  | None => Fulfilled (bufferToDataView (snd drv))
  end.

Definition read (drv : option Err * list byte) (s : t)
  : Result t DriverCall (list byte) :=
  match endpointIn s with
  | Some ep =>
      let packetSize := Endpoint.wMaxPacketSize (Endpoint.descriptor ep) in
      mkResult s [InTransfer ep packetSize] (readCallback drv)
  | None =>
      match interface s with
      | None => mkResult s [] (Rejected TypeError)
      | Some iface =>
          mkResult s
            [ControlTransfer
               (Z.lor (Z.lor LIBUSB_ENDPOINT_IN LIBUSB_REQUEST_TYPE_CLASS)
                      LIBUSB_RECIPIENT_INTERFACE)
               GET_REPORT IN_REPORT (Interface.interface iface)
               (Length PACKET_SIZE)]
            (readCallback drv)
      end
  end.

(** The callbacks of [write]: [(error)]. *)
Definition writeCallback (drv : option Err) : Promise unit :=
  match ifError drv with
  | Some error => Rejected error
  | None => Fulfilled tt
  end.

Definition write (drv : option Err) (data : BufferSource) (s : t)
  : Result t DriverCall unit :=
  match endpointOut s with
  | Some ep =>
      let packetSize := Endpoint.wMaxPacketSize (Endpoint.descriptor ep) in
      let buffer := sliceBuffer data packetSize in
      mkResult s [OutTransfer ep (bufferSourceToBuffer buffer)] (writeCallback drv)
  | None =>
      let buffer := sliceBuffer data PACKET_SIZE in
      match interface s with
      | None => mkResult s [] (Rejected TypeError)
      | Some iface =>
          mkResult s
            [ControlTransfer
               (Z.lor (Z.lor LIBUSB_ENDPOINT_OUT LIBUSB_REQUEST_TYPE_CLASS)
                      LIBUSB_RECIPIENT_INTERFACE)
               SET_REPORT OUT_REPORT (Interface.interface iface)
               (Data (bufferSourceToBuffer buffer))]
            (writeCallback drv)
      end
  end.

(** *** Sessions: any number of reads and writes after [open] *)

Inductive Op : Type :=
| Read (drv : option Err * list byte)
| Write (drv : option Err) (data : BufferSource).

(** One operation: the new instance and the driver calls it issued. *)
Definition step (s : t) (op : Op) : t * list DriverCall :=
  match op with
  | Read drv => let r := read drv s in (state r, calls r)
  | Write drv data => let r := write drv data s in (state r, calls r)
  end.

(** A sequence of operations: the final instance and one entry of driver
    calls per operation, in order. *)
Fixpoint run (s : t) (ops : list Op) : t * list (list DriverCall) :=
  match ops with
  | [] => (s, [])
  | op :: ops' =>
      let '(s1, c) := step s op in
      let '(s2, cs) := run s1 ops' in
      (s2, c :: cs)
  end.

Definition isEndpointTransfer (c : DriverCall) : bool :=
  match c with
  | InTransfer _ _ | OutTransfer _ _ => true
  | _ => false
  end.

Definition isControlTransfer (c : DriverCall) : bool :=
  match c with
  | ControlTransfer _ _ _ _ _ => true
  | _ => false
  end.

End USB.

(** ** Vocabulary of the statements *)

(** The endpoints of one direction, in the interface's declared order. *)
Definition endpointsOf (dir : Direction) (iface : Interface.t) : list Endpoint.t :=
  filter (λ ep, Endpoint.direction ep = dir) (Interface.endpoints iface).

(** An operation of a session issued exactly one driver call, of kind [kind]. *)
Definition oneCall (kind : USB.DriverCall -> bool) (cs : list USB.DriverCall) : Prop :=
  exists c, cs = [c] /\ kind c = true.

(** The bytes a caller sees through a source: all of an [ArrayBuffer], the
    window of a view. *)
Definition viewedBytes (source : BufferSource) : list byte :=
  match source with
  | ArrayBuffer bytes => bytes
  | ArrayBufferView buffer byteOffset byteLength =>
      take byteLength (drop byteOffset buffer)
  end.

(** ** Devices and payloads used as concrete inputs *)

(** The interfaces below are shaped as node-usb builds them: the number is
    in [interfaceNumber] and there is no [interface] property. *)

Definition hidraw0 : HID.t :=
  HID.mkHID "linux" (Some (HID.mkDevice "/dev/hidraw0")) "/dev/hidraw0".

Definition tenBytes : list byte :=
  [x01; x02; x03; x04; x05; x06; x07; x08; x09; x0a].

Definition epIn81 : Endpoint.t :=
  Endpoint.mkEndpoint DirIn (Endpoint.mkDescriptor 0x81 64).
Definition epIn82 : Endpoint.t :=
  Endpoint.mkEndpoint DirIn (Endpoint.mkDescriptor 0x82 64).
Definition epOut01 : Endpoint.t :=
  Endpoint.mkEndpoint DirOut (Endpoint.mkDescriptor 0x01 64).
Definition epOut02 : Endpoint.t :=
  Endpoint.mkEndpoint DirOut (Endpoint.mkDescriptor 0x02 64).
Definition epOut03 : Endpoint.t :=
  Endpoint.mkEndpoint DirOut (Endpoint.mkDescriptor 0x03 4).

(** A vendor-specific interface with two endpoints in each direction. *)
Definition ifaceBulk : Interface.t :=
  Interface.mkInterface 0 None (Interface.mkDescriptor 0xFF)
    [epIn81; epIn82; epOut01; epOut02].

(** A vendor-specific interface without endpoints, number 2. *)
Definition ifaceBare : Interface.t :=
  Interface.mkInterface 2 None (Interface.mkDescriptor 0xFF) [].

(** A vendor-specific interface with a 4-byte OUT endpoint only. *)
Definition ifaceOutOnly : Interface.t :=
  Interface.mkInterface 1 None (Interface.mkDescriptor 0xFF) [epOut03].

(** An interface object that does carry an [interface] property. *)
Definition ifaceTyped : Interface.t :=
  Interface.mkInterface 2 (Some 2) (Interface.mkDescriptor 0xFF) [].


(** A HID-class interface (class 3): no match for the default filter. *)
Definition ifaceClass3 : Interface.t :=
  Interface.mkInterface 0 None (Interface.mkDescriptor 0x03) [epIn81; epOut01].

Definition usbOn (iface : Interface.t) : USB.t :=
  USB.constructor (Device.mkDevice [iface]) None.

(** The instance after a successful [open]. *)
Definition opened (s : USB.t) : USB.t :=
  state (USB.open (Returns tt) None s).

(** ** Listing the HID devices of a vendor (the example script) *)

Module Listing.

(** An entry of [hid.devices()]; [product] may be missing. *)
Record DeviceInfo : Type := mkInfo {
  vendorId : Z;
  productId : Z;
  path : option string;
  product : option string
}.

(** [{ ...device, name: device.product }]: the entry with one more field. *)
Record Named : Type := mkNamed {
  info : DeviceInfo;
  name : option string
}.

(** [getDevices]; [devices] is what [hid.devices()] returned. *)
Definition getDevices (devices : list DeviceInfo) (vendorID : Z) : list Named :=
  let devices := filter (λ device, vendorId device = vendorID) devices in
  (λ device, mkNamed device (product device)) <$> devices.

End Listing.

(** ** More concrete inputs *)

(** A device with a HID interface followed by two vendor-specific ones. *)
Definition usbComposite : USB.t :=
  USB.constructor (Device.mkDevice [ifaceClass3; ifaceOutOnly; ifaceBulk]) None.

Definition daplink : Listing.DeviceInfo :=
  Listing.mkInfo 0x0D28 0x0204 (Some "/dev/hidraw0") (Some "DAPLink CMSIS-DAP").
Definition keyboard : Listing.DeviceInfo :=
  Listing.mkInfo 0x046D 0xC31C (Some "/dev/hidraw1") (Some "USB Keyboard").
Definition unnamedProbe : Listing.DeviceInfo :=
  Listing.mkInfo 0x0D28 0x0204 (Some "/dev/hidraw2") None.

(** * Properties of the HID back end *)

Section HIDProperties.

Implicit Types (s : HID.t) (d : HID.Device) (data : BufferSource).

(** The padding loop appends exactly the missing zero bytes, and none to a
    buffer that already has [PACKET_SIZE] bytes or more. *)
Lemma padLoop_closed_form (array : list byte) :
  HID.padLoop array
  = array ++ replicate (HID.PACKET_SIZE - length array) x00.
Proof.
  funelim (HID.padLoop array).
  - match goal with IH : HID.padLoop _ = _ ++ _ |- _ => rewrite IH end.
    rewrite length_app; simpl length.
    replace (HID.PACKET_SIZE - length array)%nat
      with (S (HID.PACKET_SIZE - (length array + 1)))%nat by lia.
    simpl. by rewrite <- app_assoc.
  - replace (HID.PACKET_SIZE - length array)%nat with 0%nat by lia.
    simpl. by rewrite app_nil_r.
Qed.

Lemma padLoop_short (array : list byte) :
  (length array < 64)%nat ->
  length (HID.padLoop array) = 64%nat.
Proof.
  intros Hlt. rewrite padLoop_closed_form, length_app, length_replicate.
  unfold HID.PACKET_SIZE. lia.
Qed.

Lemma frame_other (os : string) data :
  os <> "win32" -> HID.frame os data = HID.padLoop (arrayBufferOf data).
Proof.
  intros Hos. unfold HID.frame.
  destruct (String.eqb_spec os "win32"); [contradiction | reflexivity].
Qed.

Lemma frame_win32 data :
  HID.frame "win32" data = x00 :: HID.padLoop (arrayBufferOf data).
Proof. reflexivity. Qed.

Lemma write_calls s d (drv : SyncResp Z) data :
  HID.device s = Some d ->
  calls (HID.write drv data s) = [HID.DeviceWrite d (HID.frame (HID.os s) data)].
Proof. intros Hd. unfold HID.write. rewrite Hd. by destruct drv. Qed.

(** A write that returns resolves whatever byte count the driver reports:
    the count is not compared with the packet size. *)
Lemma write_ignores_byte_count s d (bytesWritten : Z) data :
  HID.device s = Some d ->
  promise (HID.write (Returns bytesWritten) data s) = Fulfilled tt.
Proof. intros Hd. unfold HID.write. by rewrite Hd. Qed.

(** What a caller sees through an [ArrayBuffer], or through a view that
    covers its whole backing buffer, is the buffer the back ends read. *)
Lemma viewedBytes_whole (bytes : list byte) :
  viewedBytes (ArrayBuffer bytes) = arrayBufferOf (ArrayBuffer bytes)
  /\ viewedBytes (ArrayBufferView bytes 0 (length bytes))
     = arrayBufferOf (ArrayBufferView bytes 0 (length bytes)).
Proof. split; [done |]. simpl. by rewrite drop_0, firstn_all. Qed.




(** C3. For the same input and device, the array written on win32 is the
    array written on any other platform with one zero byte put in front. *)
Theorem C3_hid_win32_prepends_zero d (p other : string) (drv : SyncResp Z) data :
  other <> "win32" ->
  exists array,
    calls (HID.write drv data (HID.mkHID other (Some d) p))
    = [HID.DeviceWrite d array]
    /\ calls (HID.write drv data (HID.mkHID "win32" (Some d) p))
       = [HID.DeviceWrite d (x00 :: array)]
    /\ length (x00 :: array) = S (length array).
Proof.
  intros Hos. exists (HID.padLoop (arrayBufferOf data)).
  rewrite !write_calls with (d := d) by reflexivity. simpl HID.os.
  rewrite (frame_other _ _ Hos), frame_win32. auto.
Qed.

Lemma C3_hid_win32_prepends_zero_witness :
  exists array,
    calls (HID.write (Returns 64) (ArrayBuffer tenBytes)
             (HID.mkHID "linux" (Some (HID.mkDevice "HID-1")) "HID-1"))
    = [HID.DeviceWrite (HID.mkDevice "HID-1") array]
    /\ calls (HID.write (Returns 64) (ArrayBuffer tenBytes)
                (HID.mkHID "win32" (Some (HID.mkDevice "HID-1")) "HID-1"))
       = [HID.DeviceWrite (HID.mkDevice "HID-1") (x00 :: array)]
    /\ length (x00 :: array) = S (length array).
Proof.
  apply (C3_hid_win32_prepends_zero (HID.mkDevice "HID-1") "HID-1" "linux").
  discriminate.
Defined.

End HIDProperties.

(** * Properties of the USB back end *)

Section USBProperties.

Implicit Types (s : USB.t) (iface : Interface.t) (ep : Endpoint.t).
Implicit Types (data : BufferSource) (ops : list USB.Op).

(** ** Buffers *)

(** With a packet size that is not negative, [sliceBuffer] drops the first
    [min(byteLength, packetSize)] bytes and returns the rest. *)
Lemma sliceBuffer_drops_prefix data (packetSize : Z) :
  0 <= packetSize ->
  USB.sliceBuffer data packetSize
  = ArrayBuffer (drop (Z.to_nat (Z.min (Z.of_nat (length (arrayBufferOf data)))
                                       packetSize))
                      (arrayBufferOf data)).
Proof.
  intros Hp. unfold USB.sliceBuffer, USB.arrayBuffer_slice.
  set (len := Z.of_nat (length (arrayBufferOf data))).
  assert (0 <= len) by (subst len; lia).
  destruct (Z.ltb_spec (Z.min len packetSize) 0) as [Hneg | _]; [lia |].
  by rewrite Z.min_l by lia.
Qed.

(** A payload that fits in a packet is sliced to the empty buffer. *)
Lemma sliceBuffer_fitting data (packetSize : Z) :
  Z.of_nat (length (arrayBufferOf data)) <= packetSize ->
  USB.sliceBuffer data packetSize = ArrayBuffer [].
Proof.
  intros Hfit. rewrite sliceBuffer_drops_prefix by lia.
  rewrite Z.min_l by lia. by rewrite Nat2Z.id, drop_all.
Qed.

(** A longer payload loses its first [packetSize] bytes. *)
Lemma sliceBuffer_longer data (packetSize : Z) :
  0 <= packetSize < Z.of_nat (length (arrayBufferOf data)) ->
  USB.sliceBuffer data packetSize
  = ArrayBuffer (drop (Z.to_nat packetSize) (arrayBufferOf data)).
Proof.
  intros Hlong. rewrite sliceBuffer_drops_prefix by lia.
  by rewrite Z.min_r by lia.
Qed.

(** ** What [open] installs *)

Lemma matching_reset s :
  USB.matching (USB.setEndpointOut None (USB.setEndpointIn None s))
  = USB.matching s.
Proof. reflexivity. Qed.

Lemma foldl_assign_interface (eps : list Endpoint.t) s :
  USB.interface (foldl USB.assignEndpoint s eps) = USB.interface s.
Proof.
  revert s. induction eps as [| ep eps IH]; intros s; simpl; [done |].
  rewrite IH. unfold USB.assignEndpoint. by destruct (Endpoint.direction ep).
Qed.

Lemma foldl_assign_fixed (eps : list Endpoint.t) s :
  USB.device (foldl USB.assignEndpoint s eps) = USB.device s
  /\ USB.interfaceClass (foldl USB.assignEndpoint s eps) = USB.interfaceClass s.
Proof.
  revert s. induction eps as [| ep eps IH]; intros s; simpl; [done |].
  destruct (IH (USB.assignEndpoint s ep)) as [-> ->].
  unfold USB.assignEndpoint. by destruct (Endpoint.direction ep).
Qed.

(** The loop leaves in [endpointIn] the last IN endpoint it met, and the
    previous value when it met none. *)
Lemma foldl_assign_endpointIn (eps : list Endpoint.t) s :
  USB.endpointIn (foldl USB.assignEndpoint s eps)
  = match last (filter (λ ep, Endpoint.direction ep = DirIn) eps) with
    | Some ep => Some ep
    | None => USB.endpointIn s
    end.
Proof.
  revert s. induction eps as [| ep eps IH]; intros s; simpl; [done |].
  rewrite IH. unfold USB.assignEndpoint.
  destruct (Endpoint.direction ep) eqn:Hdir.
  - rewrite filter_cons_True by done. rewrite last_cons.
    by destruct (last _).
  - rewrite filter_cons_False by congruence. by destruct (last _).
Qed.

Lemma foldl_assign_endpointOut (eps : list Endpoint.t) s :
  USB.endpointOut (foldl USB.assignEndpoint s eps)
  = match last (filter (λ ep, Endpoint.direction ep = DirOut) eps) with
    | Some ep => Some ep
    | None => USB.endpointOut s
    end.
Proof.
  revert s. induction eps as [| ep eps IH]; intros s; simpl; [done |].
  rewrite IH. unfold USB.assignEndpoint.
  destruct (Endpoint.direction ep) eqn:Hdir.
  - rewrite filter_cons_False by congruence. by destruct (last _).
  - rewrite filter_cons_True by done. rewrite last_cons.
    by destruct (last _).
Qed.

(** A successful [open] on a device with a matching interface: the promise
    resolves, the first matching interface is selected, and each endpoint
    field holds the last endpoint of its direction. *)
Lemma open_resolves s iface (rest : list Interface.t) :
  USB.matching s = iface :: rest ->
  promise (USB.open (Returns tt) None s) = Fulfilled tt
  /\ calls (USB.open (Returns tt) None s)
     = [USB.DeviceOpen; USB.SetConfiguration 1]
  /\ USB.interface (opened s) = Some iface
  /\ USB.endpointIn (opened s) = last (endpointsOf DirIn iface)
  /\ USB.endpointOut (opened s) = last (endpointsOf DirOut iface).
Proof.
  intros Hm. unfold opened, USB.open, USB.openCallback.
  rewrite matching_reset, Hm. simpl.
  rewrite foldl_assign_interface, foldl_assign_endpointIn,
    foldl_assign_endpointOut.
  unfold endpointsOf. simpl.
  repeat split; by destruct (last _).
Qed.

(** Without a matching interface the callback throws: [open] calls neither
    [resolve] nor [reject]. *)
Lemma open_no_match s :
  USB.matching s = [] ->
  promise (USB.open (Returns tt) None s)
  = PendingUncaught (JsError "No HID interfaces found.").
Proof.
  intros Hm. unfold USB.open, USB.openCallback.
  by rewrite matching_reset, Hm.
Qed.

(** ** Reads and writes keep the instance *)

Lemma read_state (drv : option Err * list byte) s : state (USB.read drv s) = s.
Proof.
  unfold USB.read. destruct (USB.endpointIn s); [done |].
  by destruct (USB.interface s).
Qed.

Lemma write_state (drv : option Err) data s : state (USB.write drv data s) = s.
Proof.
  unfold USB.write. destruct (USB.endpointOut s); [done |].
  by destruct (USB.interface s).
Qed.

Lemma step_state s (op : USB.Op) : fst (USB.step s op) = s.
Proof. destruct op; simpl; [apply read_state | apply write_state]. Qed.

Lemma run_state ops s : fst (USB.run s ops) = s.
Proof.
  induction ops as [| op ops IH]; simpl; [done |].
  pose proof (step_state s op) as Hs.
  destruct (USB.step s op) as [s1 c]. simpl in Hs. subst s1.
  destruct (USB.run s ops) as [s2 cs]. done.
Qed.

Lemma run_trace_cons s (op : USB.Op) ops :
  snd (USB.run s (op :: ops)) = snd (USB.step s op) :: snd (USB.run s ops).
Proof.
  simpl. pose proof (step_state s op) as Hs.
  destruct (USB.step s op) as [s1 c]. simpl in Hs. subst s1.
  by destruct (USB.run s ops).
Qed.

(** Every operation of a session satisfies what one operation on the
    starting instance satisfies. *)
Lemma run_trace_Forall (P : list USB.DriverCall -> Prop) s ops :
  (forall op, P (snd (USB.step s op))) ->
  Forall P (snd (USB.run s ops)).
Proof.
  intros HP. induction ops as [| op ops IH]; [by constructor |].
  rewrite run_trace_cons. by constructor.
Qed.

(** ** Mode of a read or write *)

Lemma last_endpointsOf_is_Some (dir : Direction) iface :
  is_Some (last (endpointsOf dir iface))
  <-> exists ep, ep ∈ Interface.endpoints iface /\ Endpoint.direction ep = dir.
Proof.
  rewrite last_is_Some. unfold endpointsOf. split.
  - intros Hne. destruct (filter _ _) as [| ep l] eqn:Hf; [done |].
    assert (Hin : ep ∈ filter (λ ep, Endpoint.direction ep = dir)
                              (Interface.endpoints iface))
      by (rewrite Hf; apply list_elem_of_here).
    apply list_elem_of_filter in Hin as [Hdir Hin]. by exists ep.
  - intros (ep & Hin & Hdir) Hnil.
    by apply (filter_nil_not_elem_of _ _ ep Hnil Hdir).
Qed.

Lemma read_mode (drv : option Err * list byte) s iface :
  USB.interface s = Some iface ->
  match USB.endpointIn s with
  | Some _ => oneCall USB.isEndpointTransfer (calls (USB.read drv s))
  | None => oneCall USB.isControlTransfer (calls (USB.read drv s))
  end.
Proof.
  intros Hi. unfold USB.read, oneCall. rewrite Hi.
  destruct (USB.endpointIn s); simpl; eauto.
Qed.

Lemma write_mode (drv : option Err) data s iface :
  USB.interface s = Some iface ->
  match USB.endpointOut s with
  | Some _ => oneCall USB.isEndpointTransfer (calls (USB.write drv data s))
  | None => oneCall USB.isControlTransfer (calls (USB.write drv data s))
  end.
Proof.
  intros Hi. unfold USB.write, oneCall. rewrite Hi.
  destruct (USB.endpointOut s); simpl; eauto.
Qed.

(** No driver call is both an endpoint transfer and a control transfer. *)
Lemma oneCall_exclusive (cs : list USB.DriverCall) :
  oneCall USB.isEndpointTransfer cs -> oneCall USB.isControlTransfer cs -> False.
Proof.
  intros (c & -> & Hc) (c' & [= <-] & Hc'). by destruct c.
Qed.

(** ** Write slicing *)

(** C1. What [write] hands to the driver is the payload without its first
    [min(byteLength, packetSize)] bytes, not those first bytes: in control
    mode a 3-byte payload is sent as an empty buffer and a 65-byte payload as
    its last byte alone; on a 4-byte OUT endpoint a 6-byte payload is sent as
    its last two bytes. *)
Theorem C1_usb_write_sends_the_tail :
  calls (USB.write None (ArrayBuffer [x01; x02; x03]) (opened (usbOn ifaceBare)))
  = [USB.ControlTransfer 0x21 0x09 0x200 None (USB.Data [])]
  /\ calls (USB.write None (ArrayBuffer (replicate 64 x00 ++ [xff]))
                      (opened (usbOn ifaceBare)))
     = [USB.ControlTransfer 0x21 0x09 0x200 None (USB.Data [xff])]
  /\ calls (USB.write None (ArrayBuffer [x01; x02; x03; x04; x05; x06])
                      (opened (usbOn ifaceOutOnly)))
     = [USB.OutTransfer epOut03 [x05; x06]].
Proof. repeat split; vm_compute; reflexivity. Qed.

(** ** Interface discovery *)

(** C4. On a device whose only interface has class 3, and on a device
    without interfaces, [open] with the default class filter neither resolves
    nor rejects: the error is thrown inside the [setConfiguration] callback
    and the promise stays pending. *)
Theorem C4_usb_open_without_match_never_settles :
  promise (USB.open (Returns tt) None (usbOn ifaceClass3))
  = PendingUncaught (JsError "No HID interfaces found.")
  /\ promise (USB.open (Returns tt) None (USB.constructor (Device.mkDevice []) None))
     = PendingUncaught (JsError "No HID interfaces found.").
Proof. split; vm_compute; reflexivity. Qed.

(** With exactly one interface of the configured class, [open] resolves and
    selects it. *)
Lemma open_selects_unique_match s iface :
  USB.matching s = [iface] ->
  promise (USB.open (Returns tt) None s) = Fulfilled tt
  /\ USB.interface (opened s) = Some iface.
Proof.
  intros Hm. destruct (open_resolves s iface [] Hm) as (Hp & _ & Hi & _).
  by split.
Qed.

(** ** Endpoint selection *)

(** C5 fails as stated: on an interface with the endpoints IN 0x81, IN 0x82,
    OUT 0x01, OUT 0x02, in that order, [open] leaves IN 0x82 and OUT 0x02
    installed, not the first endpoint of each direction. *)
Lemma C5_open_does_not_install_first_endpoint :
  head (endpointsOf DirIn ifaceBulk) = Some epIn81
  /\ head (endpointsOf DirOut ifaceBulk) = Some epOut01
  /\ USB.endpointIn (opened (usbOn ifaceBulk)) = Some epIn82
  /\ USB.endpointOut (opened (usbOn ifaceBulk)) = Some epOut02
  /\ USB.endpointIn (opened (usbOn ifaceBulk)) <> head (endpointsOf DirIn ifaceBulk)
  /\ USB.endpointOut (opened (usbOn ifaceBulk))
     <> head (endpointsOf DirOut ifaceBulk).
Proof. repeat split; vm_compute; congruence. Qed.

(** C5, amended. [open] installs the LAST endpoint of each direction, in the
    declared order of the first matching interface, as the read and the
    write endpoint. *)
Theorem C5_open_installs_last_endpoint s iface (rest : list Interface.t) :
  USB.matching s = iface :: rest ->
  promise (USB.open (Returns tt) None s) = Fulfilled tt
  /\ USB.endpointIn (opened s) = last (endpointsOf DirIn iface)
  /\ USB.endpointOut (opened s) = last (endpointsOf DirOut iface).
Proof.
  intros Hm. destruct (open_resolves s iface rest Hm) as (Hp & _ & _ & Hin & Hout).
  by repeat split.
Qed.

Lemma C5_open_installs_last_endpoint_witness :
  USB.matching (usbOn ifaceBulk) = [ifaceBulk]
  /\ USB.endpointIn (opened (usbOn ifaceBulk)) = Some epIn82
  /\ USB.endpointOut (opened (usbOn ifaceBulk)) = Some epOut02.
Proof.
  split; [reflexivity |].
  destruct (C5_open_installs_last_endpoint (usbOn ifaceBulk) ifaceBulk []
              eq_refl) as (_ & Hin & Hout).
  split; [rewrite Hin | rewrite Hout]; reflexivity.
Defined.

(** ** Control-mode reads *)

(** In a session opened on an interface without endpoints, a read issued
    after any number of reads and writes makes exactly one driver call: a
    control transfer, device to host, class request, interface recipient
    (0xA1), request 0x01, value 0x0100, length 64, whose index is the value
    of the [interface] property of the selected interface object; when the
    callback gets no error the promise resolves with the driver's bytes. *)
Lemma control_read_call
    s iface (rest : list Interface.t) ops (error : option Err) (buffer : list byte) :
  USB.matching s = iface :: rest ->
  Interface.endpoints iface = [] ->
  calls (USB.read (error, buffer) (fst (USB.run (opened s) ops)))
  = [USB.ControlTransfer 0xA1 0x01 0x0100 (Interface.interface iface)
       (USB.Length 64)]
  /\ (error = None ->
      promise (USB.read (error, buffer) (fst (USB.run (opened s) ops)))
      = Fulfilled buffer).
Proof.
  intros Hm Hno. rewrite run_state.
  destruct (open_resolves s iface rest Hm) as (_ & _ & Hi & Hin & _).
  unfold endpointsOf in Hin. rewrite Hno in Hin. simpl in Hin.
  unfold USB.read. rewrite Hin, Hi. simpl.
  split; [done | by intros ->].
Qed.

(** The index is the interface number on an object that carries it as its
    [interface] property. *)
Lemma control_read_index_when_present :
  Interface.interfaceNumber ifaceTyped = 2
  /\ calls (USB.read (None, tenBytes) (opened (usbOn ifaceTyped)))
     = [USB.ControlTransfer 0xA1 0x01 0x0100 (Some 2) (USB.Length 64)].
Proof. split; reflexivity. Qed.

(** C8. On an interface object as node-usb builds it, with interface number
    2 and no endpoints, a read after [open] (and after further reads and
    writes) issues one control transfer with request type 0xA1, request
    0x01, value 0x0100 and length 64 and resolves with the driver's bytes,
    but its index is [undefined], not the interface number: the class reads
    the property [interface], which the object does not have. *)
Theorem C8_usb_control_read_index_undefined :
  Interface.interfaceNumber ifaceBare = 2
  /\ USB.interface (opened (usbOn ifaceBare)) = Some ifaceBare
  /\ calls (USB.read (None, tenBytes) (opened (usbOn ifaceBare)))
     = [USB.ControlTransfer 0xA1 0x01 0x0100 None (USB.Length 64)]
  /\ calls (USB.read (None, tenBytes)
              (fst (USB.run (opened (usbOn ifaceBare))
                      [USB.Read (None, []);
                       USB.Write None (ArrayBuffer tenBytes)])))
     = [USB.ControlTransfer 0xA1 0x01 0x0100 None (USB.Length 64)]
  /\ promise (USB.read (None, tenBytes) (opened (usbOn ifaceBare)))
     = Fulfilled tenBytes.
Proof. repeat split; vm_compute; reflexivity. Qed.

(** ** Mode of a session *)

(** C9. After a successful [open], every read and every write of the
    session, however many there are, issues exactly one driver call; all of
    them are endpoint transfers when the selected interface has an IN and an
    OUT endpoint, and all of them are control transfers when it has no
    endpoint. *)
Theorem C9_usb_mode_fixed_at_open s iface (rest : list Interface.t) ops :
  USB.matching s = iface :: rest ->
  length (snd (USB.run (opened s) ops)) = length ops
  /\ ((exists ep, ep ∈ Interface.endpoints iface /\ Endpoint.direction ep = DirIn) ->
      (exists ep, ep ∈ Interface.endpoints iface /\ Endpoint.direction ep = DirOut) ->
      Forall (oneCall USB.isEndpointTransfer) (snd (USB.run (opened s) ops)))
  /\ (Interface.endpoints iface = [] ->
      Forall (oneCall USB.isControlTransfer) (snd (USB.run (opened s) ops))).
Proof.
  intros Hm.
  destruct (open_resolves s iface rest Hm) as (_ & _ & Hi & Hin & Hout).
  split; [| split].
  - generalize (opened s). induction ops as [| op ops IH]; intros s0; [done |].
    rewrite run_trace_cons. simpl length. by rewrite IH.
  - intros Hex_in Hex_out.
    apply last_endpointsOf_is_Some in Hex_in as [ep_in Hep_in].
    apply last_endpointsOf_is_Some in Hex_out as [ep_out Hep_out].
    apply run_trace_Forall. intros [drv | drv data]; simpl.
    + pose proof (read_mode drv _ _ Hi) as Hr.
      by rewrite Hin, Hep_in in Hr.
    + pose proof (write_mode drv data _ _ Hi) as Hw.
      by rewrite Hout, Hep_out in Hw.
  - intros Hno. unfold endpointsOf in Hin, Hout. rewrite Hno in Hin, Hout.
    simpl in Hin, Hout.
    apply run_trace_Forall. intros [drv | drv data]; simpl.
    + pose proof (read_mode drv _ _ Hi) as Hr. by rewrite Hin in Hr.
    + pose proof (write_mode drv data _ _ Hi) as Hw. by rewrite Hout in Hw.
Qed.

Lemma C9_usb_mode_fixed_at_open_witness :
  Forall (oneCall USB.isEndpointTransfer)
    (snd (USB.run (opened (usbOn ifaceBulk))
            [USB.Write None (ArrayBuffer tenBytes); USB.Read (None, tenBytes);
             USB.Write None (ArrayBuffer []); USB.Read (None, [])]))
  /\ Forall (oneCall USB.isControlTransfer)
       (snd (USB.run (opened (usbOn ifaceBare))
               [USB.Write None (ArrayBuffer tenBytes); USB.Read (None, tenBytes);
                USB.Write None (ArrayBuffer []); USB.Read (None, [])])).
Proof.
  split.
  - apply (C9_usb_mode_fixed_at_open (usbOn ifaceBulk) ifaceBulk [] _ eq_refl).
    + exists epIn81. split; [apply list_elem_of_here | reflexivity].
    + exists epOut01. split; [| reflexivity].
      do 2 apply list_elem_of_further. apply list_elem_of_here.
  - apply (C9_usb_mode_fixed_at_open (usbOn ifaceBare) ifaceBare [] _ eq_refl).
    reflexivity.
Defined.

(** C10. In a session, a read is an endpoint transfer exactly when the
    selected interface declares an IN endpoint and a control transfer
    otherwise; independently, a write is an endpoint transfer exactly when
    the interface declares an OUT endpoint and a control transfer otherwise.
    An interface with endpoints of one direction only therefore mixes both
    kinds of transfer in one session. *)
Theorem C10_usb_mode_per_direction
    s iface (rest : list Interface.t) ops
    (drvR : option Err * list byte) (drvW : option Err) data :
  USB.matching s = iface :: rest ->
  let s' := fst (USB.run (opened s) ops) in
  let hasIn := exists ep, ep ∈ Interface.endpoints iface
                          /\ Endpoint.direction ep = DirIn in
  let hasOut := exists ep, ep ∈ Interface.endpoints iface
                           /\ Endpoint.direction ep = DirOut in
  (oneCall USB.isEndpointTransfer (calls (USB.read drvR s')) <-> hasIn)
  /\ (oneCall USB.isControlTransfer (calls (USB.read drvR s')) <-> ~ hasIn)
  /\ (oneCall USB.isEndpointTransfer (calls (USB.write drvW data s')) <-> hasOut)
  /\ (oneCall USB.isControlTransfer (calls (USB.write drvW data s')) <-> ~ hasOut).
Proof.
  intros Hm s' hasIn hasOut. subst s'. rewrite run_state.
  destruct (open_resolves s iface rest Hm) as (_ & _ & Hi & Hin & Hout).
  pose proof (read_mode drvR _ _ Hi) as Hr.
  pose proof (write_mode drvW data _ _ Hi) as Hw.
  pose proof (last_endpointsOf_is_Some DirIn iface) as HsIn.
  pose proof (last_endpointsOf_is_Some DirOut iface) as HsOut.
  fold hasIn in HsIn. fold hasOut in HsOut.
  rewrite Hin in Hr. rewrite Hout in Hw.
  assert (Hread :
    (oneCall USB.isEndpointTransfer (calls (USB.read drvR (opened s))) <-> hasIn)
    /\ (oneCall USB.isControlTransfer (calls (USB.read drvR (opened s)))
        <-> ~ hasIn)).
  { destruct (last (endpointsOf DirIn iface)) as [ep |].
    - assert hasIn by (apply HsIn; eauto).
      split; split; try done. intros Hc. by destruct (oneCall_exclusive _ Hr Hc).
    - assert (~ hasIn) by (rewrite <- HsIn; by intros [? ?]).
      split; split; try done. intros He. by destruct (oneCall_exclusive _ He Hr). }
  assert (Hwrite :
    (oneCall USB.isEndpointTransfer (calls (USB.write drvW data (opened s)))
     <-> hasOut)
    /\ (oneCall USB.isControlTransfer (calls (USB.write drvW data (opened s)))
        <-> ~ hasOut)).
  { destruct (last (endpointsOf DirOut iface)) as [ep |].
    - assert hasOut by (apply HsOut; eauto).
      split; split; try done. intros Hc. by destruct (oneCall_exclusive _ Hw Hc).
    - assert (~ hasOut) by (rewrite <- HsOut; by intros [? ?]).
      split; split; try done. intros He. by destruct (oneCall_exclusive _ He Hw). }
  tauto.
Qed.

Lemma C10_usb_mode_per_direction_witness :
  USB.matching (usbOn ifaceOutOnly) = [ifaceOutOnly]
  /\ oneCall USB.isEndpointTransfer
       (calls (USB.write None (ArrayBuffer tenBytes)
                 (fst (USB.run (opened (usbOn ifaceOutOnly)) []))))
  /\ oneCall USB.isControlTransfer
       (calls (USB.read (None, tenBytes)
                 (fst (USB.run (opened (usbOn ifaceOutOnly)) [])))).
Proof.
  split; [reflexivity |].
  destruct (C10_usb_mode_per_direction (usbOn ifaceOutOnly) ifaceOutOnly [] []
              (None, tenBytes) None (ArrayBuffer tenBytes) eq_refl)
    as (_ & Hrc & Hwe & _).
  split.
  - apply Hwe. exists epOut03. split; [apply list_elem_of_here | reflexivity].
  - apply Hrc. intros (ep & Hin & Hdir).
    apply elem_of_cons in Hin as [-> | Hin]; [discriminate |].
    by apply elem_of_nil in Hin.
Defined.

End USBProperties.

(** * Properties shared by both back ends *)

Section BothBackEnds.

(** The callbacks of the USB write test [if (error)]: an error argument
    that is not truthy, such as the empty string, is no failure report and
    the write resolves. *)
Lemma usb_write_falsy_error_resolves (e : Err) (data : BufferSource) (s : USB.t) :
  truthy e = false ->
  calls (USB.write (Some e) data s) <> [] ->
  promise (USB.write (Some e) data s) = Fulfilled tt.
Proof.
  intros He Hcall. unfold USB.write, USB.writeCallback in *. simpl. rewrite He.
  destruct (USB.endpointOut s); [done |].
  by destruct (USB.interface s).
Qed.

(** C6. In both back ends a write whose driver call fails is rejected with
    the driver's own error value: for HID the failure is the exception thrown
    by [device.write], whatever value is thrown; for USB it is the error
    handed to the transfer callback, which the callback takes as a failure
    when it is a truthy value. *)
Theorem C6_write_failure_rejects_with_driver_error (e : Err) (data : BufferSource) :
  (forall (s : HID.t) (d : HID.Device),
      HID.device s = Some d ->
      calls (HID.write (Throws e) data s)
      = [HID.DeviceWrite d (HID.frame (HID.os s) data)]
      /\ promise (HID.write (Throws e) data s) = Rejected e)
  /\ (forall (s : USB.t),
        truthy e = true ->
        calls (USB.write (Some e) data s) <> [] ->
        promise (USB.write (Some e) data s) = Rejected e).
Proof.
  split.
  - intros s d Hd. unfold HID.write. by rewrite Hd.
  - intros s He Hcall. unfold USB.write, USB.writeCallback in *. simpl.
    rewrite He.
    destruct (USB.endpointOut s); [done |].
    by destruct (USB.interface s).
Qed.

Lemma C6_write_failure_rejects_with_driver_error_witness :
  promise (HID.write (Throws (DriverError "Cannot write to HID device"))
             (ArrayBuffer tenBytes) hidraw0)
  = Rejected (DriverError "Cannot write to HID device")
  /\ promise (USB.write (Some (DriverError "LIBUSB_TRANSFER_STALL"))
                (ArrayBuffer tenBytes) (opened (usbOn ifaceBulk)))
     = Rejected (DriverError "LIBUSB_TRANSFER_STALL")
  /\ promise (USB.write (Some (DriverError "LIBUSB_TRANSFER_STALL"))
                (ArrayBuffer tenBytes) (opened (usbOn ifaceBare)))
     = Rejected (DriverError "LIBUSB_TRANSFER_STALL").
Proof.
  split; [| split].
  - apply (C6_write_failure_rejects_with_driver_error
             (DriverError "Cannot write to HID device") (ArrayBuffer tenBytes)
             ) with (d := HID.mkDevice "/dev/hidraw0").
    reflexivity.
  - apply (C6_write_failure_rejects_with_driver_error
             (DriverError "LIBUSB_TRANSFER_STALL") (ArrayBuffer tenBytes));
      [reflexivity | discriminate].
  - apply (C6_write_failure_rejects_with_driver_error
             (DriverError "LIBUSB_TRANSFER_STALL") (ArrayBuffer tenBytes));
      [reflexivity | discriminate].
Defined.

(** In both back ends a close whose driver call throws is rejected with the
    exception and leaves the instance as it was. *)
Lemma close_throw_rejects (ex : Err) :
  (forall (s : HID.t) (d : HID.Device),
      HID.device s = Some d ->
      HID.close (Throws ex) s = mkResult s [HID.DeviceClose d] (Rejected ex))
  /\ (forall (s : USB.t),
        USB.close (Throws ex) s = mkResult s [USB.DeviceClose] (Rejected ex)).
Proof.
  split; [| done]. intros s d Hd. unfold HID.close. by rewrite Hd.
Qed.

(** C7 fails as stated: a USB instance that was opened on an interface with
    endpoints still holds its interface and both endpoints after two
    successful closes, and a close whose driver call throws is rejected. *)
Lemma C7_usb_close_keeps_endpoints :
  (let s1 := state (USB.close (Returns tt) (opened (usbOn ifaceBulk))) in
   let s2 := state (USB.close (Returns tt) s1) in
   USB.endpointIn s2 = Some epIn82
   /\ USB.endpointOut s2 = Some epOut02
   /\ USB.interface s2 = Some ifaceBulk)
  /\ promise (USB.close
                (Throws (DriverError "Can't close device with a pending request"))
                (opened (usbOn ifaceBulk)))
     = Rejected (DriverError "Can't close device with a pending request").
Proof. split; vm_compute; repeat split. Qed.

(** C7, amended. When the driver's close returns normally, closing twice
    resolves both times and leaves the instance as closing once does.  For
    HID that instance has no device attached and the second close does not
    call the driver; for USB close changes no field (the device, interface
    and endpoint references stay) and each close calls the driver. *)
Theorem C7_close_twice_same_as_once :
  (forall (s : HID.t) (drv2 : SyncResp unit),
      let r1 := HID.close (Returns tt) s in
      let r2 := HID.close drv2 (state r1) in
      promise r1 = Fulfilled tt
      /\ promise r2 = Fulfilled tt
      /\ state r2 = state r1
      /\ HID.device (state r1) = None
      /\ calls r2 = [])
  /\ (forall (s : USB.t),
        let r1 := USB.close (Returns tt) s in
        let r2 := USB.close (Returns tt) (state r1) in
        promise r1 = Fulfilled tt
        /\ promise r2 = Fulfilled tt
        /\ state r2 = state r1
        /\ state r1 = s
        /\ calls r2 = [USB.DeviceClose]).
Proof.
  split.
  - intros s drv2. unfold HID.close.
    destruct (HID.device s) as [d |] eqn:Hd; simpl; [done |].
    by rewrite Hd.
  - intros s. by simpl.
Qed.

End BothBackEnds.

(** * Further properties of the HID back end *)

Section HIDBehaviour.

Implicit Types (s : HID.t) (d : HID.Device) (data : BufferSource).

Lemma string_length_zero (p : string) : (String.length p =? 0)%nat = true <-> p = "".
Proof.
  destruct p; simpl; split; try done.
Qed.

Lemma setDevice_detach_attach s d :
  HID.device s = None -> HID.setDevice None (HID.setDevice (Some d) s) = s.
Proof. destruct s as [o dev p]. simpl. by intros ->. Qed.


(** X1. [open] resolves exactly when the path is not empty and the driver's
    constructor returns, and then the returned device is attached; the
    driver is left alone exactly when the path is empty, where the rejection
    is the string "No path specified"; a constructor that throws rejects with
    its exception; whenever [open] does not resolve the instance is
    unchanged. *)
Theorem X1_hid_open_outcome (drv : SyncResp HID.Device) s :
  (promise (HID.open drv s) = Fulfilled tt
   <-> HID.path s <> "" /\ exists d, drv = Returns d)
  /\ (calls (HID.open drv s) = [] <-> HID.path s = "")
  /\ (HID.path s = "" ->
      promise (HID.open drv s) = Rejected (JsString "No path specified"))
  /\ (forall d, HID.path s <> "" -> drv = Returns d ->
      HID.device (state (HID.open drv s)) = Some d)
  /\ (forall ex, HID.path s <> "" -> drv = Throws ex ->
      promise (HID.open drv s) = Rejected ex)
  /\ (promise (HID.open drv s) <> Fulfilled tt -> state (HID.open drv s) = s).
Proof.
  unfold HID.open.
  destruct (String.length (HID.path s) =? 0)%nat eqn:Hlen.
  - apply string_length_zero in Hlen. simpl.
    repeat split; try done; try (intros; congruence).
    by intros [? _].
  - assert (Hne : HID.path s <> "").
    { intros Hp. apply string_length_zero in Hp. congruence. }
    destruct drv as [d | ex]; simpl; repeat split; try done;
      try (intros; congruence); eauto.
    by intros [_ [d [=]]].
Qed.

(** X2. Opening a closed instance and closing it again brings back the
    original instance; both promises resolve and the driver sees one
    constructor call and one close of the device it returned. *)
Theorem X2_hid_open_close_round_trip s d :
  HID.device s = None ->
  HID.path s <> "" ->
  let r1 := HID.open (Returns d) s in
  let r2 := HID.close (Returns tt) (state r1) in
  promise r1 = Fulfilled tt
  /\ promise r2 = Fulfilled tt
  /\ state r2 = s
  /\ calls r1 ++ calls r2 = [HID.NewDevice (HID.path s); HID.DeviceClose d].
Proof.
  intros Hd Hp. unfold HID.open.
  destruct (String.length (HID.path s) =? 0)%nat eqn:Hlen.
  { apply string_length_zero in Hlen. contradiction. }
  simpl. unfold HID.close. simpl.
  repeat split. by apply setDevice_detach_attach.
Qed.

Lemma X2_hid_open_close_round_trip_witness :
  state (HID.close (Returns tt)
           (state (HID.open (Returns (HID.mkDevice "/dev/hidraw0"))
                     (HID.constructor "linux" "/dev/hidraw0"))))
  = HID.constructor "linux" "/dev/hidraw0".
Proof.
  destruct (X2_hid_open_close_round_trip
              (HID.constructor "linux" "/dev/hidraw0")
              (HID.mkDevice "/dev/hidraw0") eq_refl) as (_ & _ & Hs & _);
    [discriminate | exact Hs].
Defined.

(** X3. After a close that resolved, a read and a write are both rejected
    with a TypeError and neither reaches the driver. *)
Theorem X3_hid_closed_instance_rejects
    (drvC : SyncResp unit) s (drvR : option Err * list byte)
    (drvW : SyncResp Z) data :
  promise (HID.close drvC s) = Fulfilled tt ->
  let s' := state (HID.close drvC s) in
  HID.read drvR s' = mkResult s' [] (Rejected TypeError)
  /\ HID.write drvW data s' = mkResult s' [] (Rejected TypeError).
Proof.
  intros Hp s'.
  assert (Hnone : HID.device s' = None).
  { subst s'. unfold HID.close in *.
    destruct (HID.device s) eqn:Hd; [| done].
    by destruct drvC. }
  unfold HID.read, HID.write. by rewrite Hnone.
Qed.

Lemma X3_hid_closed_instance_rejects_witness :
  promise (HID.write (Returns 64) (ArrayBuffer tenBytes)
             (state (HID.close (Returns tt) hidraw0)))
  = Rejected TypeError.
Proof.
  destruct (X3_hid_closed_instance_rejects (Returns tt) hidraw0 (None, [])
              (Returns 64) (ArrayBuffer tenBytes) eq_refl) as [_ Hw].
  by rewrite Hw.
Defined.




(** X6. A close whose driver call throws is rejected with that exception
    and keeps the device attached, so that the next close calls the driver
    again. *)
Theorem X6_hid_failed_close_keeps_device s d (ex : Err) (drv2 : SyncResp unit) :
  HID.device s = Some d ->
  let r1 := HID.close (Throws ex) s in
  promise r1 = Rejected ex
  /\ state r1 = s
  /\ calls (HID.close drv2 (state r1)) = [HID.DeviceClose d].
Proof.
  intros Hd. unfold HID.close. rewrite Hd. simpl. rewrite Hd.
  by destruct drv2.
Qed.

Lemma X6_hid_failed_close_keeps_device_witness :
  calls (HID.close (Returns tt)
           (state (HID.close (Throws (DriverError "busy")) hidraw0)))
  = [HID.DeviceClose (HID.mkDevice "/dev/hidraw0")].
Proof.
  by destruct (X6_hid_failed_close_keeps_device hidraw0
                 (HID.mkDevice "/dev/hidraw0") (DriverError "busy")
                 (Returns tt) eq_refl) as (_ & _ & Hc).
Defined.

End HIDBehaviour.

(** * Further properties of the USB back end *)

Section USBBehaviour.

Implicit Types (s : USB.t) (iface : Interface.t) (ep : Endpoint.t).
Implicit Types (data : BufferSource) (ops : list USB.Op).

(** The instance [open] starts its callback from. *)
Lemma reset_setInterface (i : option Interface.t) s :
  USB.setInterface i (USB.setEndpointOut None (USB.setEndpointIn None s))
  = USB.mkUSB (USB.device s) (USB.interfaceClass s) i None None.
Proof. reflexivity. Qed.

Lemma matching_same s1 s2 :
  USB.device s1 = USB.device s2 ->
  USB.interfaceClass s1 = USB.interfaceClass s2 ->
  USB.matching s1 = USB.matching s2.
Proof. unfold USB.matching. by intros -> ->. Qed.

(** The instance after [open], whatever the driver answers. *)
Lemma open_state (drvOpen : SyncResp unit) (drvConfig : option Err) s :
  state (USB.open drvOpen drvConfig s)
  = match drvOpen, ifError drvConfig, USB.matching s with
    | Returns _, None, iface :: _ =>
        foldl USB.assignEndpoint
          (USB.mkUSB (USB.device s) (USB.interfaceClass s) (Some iface) None None)
          (Interface.endpoints iface)
    | _, _, _ => USB.setEndpointOut None (USB.setEndpointIn None s)
    end.
Proof.
  unfold USB.open, USB.openCallback. rewrite matching_reset.
  destruct drvOpen as [u | ex]; [| done].
  destruct (ifError drvConfig) as [e |]; [done |].
  by destruct (USB.matching s).
Qed.

(** [open] resolves as soon as the callback takes no error and an interface
    matches. *)
Lemma open_promise (drvOpen : SyncResp unit) (drvConfig : option Err) s :
  promise (USB.open drvOpen drvConfig s)
  = match drvOpen, ifError drvConfig, USB.matching s with
    | Throws ex, _, _ => Rejected ex
    | Returns _, Some e, _ => Rejected e
    | Returns _, None, [] => PendingUncaught (JsError "No HID interfaces found.")
    | Returns _, None, _ :: _ => Fulfilled tt
    end.
Proof.
  unfold USB.open, USB.openCallback. rewrite matching_reset.
  destruct drvOpen as [u | ex]; [| done].
  destruct (ifError drvConfig) as [e |]; [done |].
  by destruct (USB.matching s).
Qed.

Lemma ifError_truthy (e : Err) : truthy e = true -> ifError (Some e) = Some e.
Proof. intros He. simpl. by rewrite He. Qed.

Lemma opened_fixed s :
  USB.device (opened s) = USB.device s
  /\ USB.interfaceClass (opened s) = USB.interfaceClass s.
Proof.
  unfold opened. rewrite open_state.
  destruct (USB.matching s) as [| iface rest]; [done |].
  by destruct (foldl_assign_fixed (Interface.endpoints iface)
                 (USB.mkUSB (USB.device s) (USB.interfaceClass s) (Some iface)
                    None None)).
Qed.

Lemma filter_first_match {A} (P : A -> Prop) `{!forall x, Decision (P x)}
    (pre : list A) (x : A) (post : list A) :
  Forall (λ y, ~ P y) pre -> P x ->
  filter P (pre ++ x :: post) = x :: filter P post.
Proof.
  intros Hpre Hx. induction Hpre as [| y pre Hy _ IH]; simpl.
  - by rewrite filter_cons_True.
  - by rewrite filter_cons_False.
Qed.

(** X7. [open] resolves exactly when [device.open()] returns, the
    configuration callback takes no error (its error argument is absent or
    not truthy) and at least one interface has the configured class.  An
    exception of [device.open()] rejects with that exception before
    [setConfiguration] is called; a truthy error of [setConfiguration]
    rejects with that error, whatever the interfaces are. *)
Theorem X7_usb_open_outcome (drvOpen : SyncResp unit) (drvConfig : option Err) s :
  (promise (USB.open drvOpen drvConfig s) = Fulfilled tt
   <-> (exists u, drvOpen = Returns u)
       /\ (forall e, drvConfig = Some e -> truthy e = false)
       /\ USB.matching s <> [])
  /\ (forall ex, drvOpen = Throws ex ->
      promise (USB.open drvOpen drvConfig s) = Rejected ex
      /\ calls (USB.open drvOpen drvConfig s) = [USB.DeviceOpen])
  /\ (forall u e, drvOpen = Returns u -> drvConfig = Some e -> truthy e = true ->
      promise (USB.open drvOpen drvConfig s) = Rejected e
      /\ calls (USB.open drvOpen drvConfig s)
         = [USB.DeviceOpen; USB.SetConfiguration 1]).
Proof.
  assert (Hcalls : forall u, drvOpen = Returns u ->
            calls (USB.open drvOpen drvConfig s)
            = [USB.DeviceOpen; USB.SetConfiguration 1]).
  { intros u ->. unfold USB.open.
    by destruct (USB.openCallback drvConfig _). }
  rewrite open_promise. split; [| split].
  - destruct drvOpen as [u | ex].
    + destruct drvConfig as [e |]; simpl.
      * destruct (truthy e) eqn:He.
        -- split; [done |]. intros (_ & Hf & _).
           specialize (Hf e eq_refl). congruence.
        -- destruct (USB.matching s); split; try done.
           ++ by intros (_ & _ & ?).
           ++ intros _. repeat split; eauto. by intros ? [= <-].
      * destruct (USB.matching s); split; try done.
        -- by intros (_ & _ & ?).
        -- intros _. repeat split; eauto. done.
    + split; [done |]. by intros ([? [=]] & _).
  - by intros ex ->.
  - intros u e -> -> He. rewrite (ifError_truthy e He).
    split; [done |]. by apply (Hcalls u).
Qed.

(** X8. When [open] does not resolve (the driver threw, reported an error,
    or no interface matched) both endpoint fields are unset afterwards, even
    if an earlier session had set them, and the interface, device and class
    fields are what they were. *)
Theorem X8_usb_failed_open_unsets_endpoints
    (drvOpen : SyncResp unit) (drvConfig : option Err) s :
  promise (USB.open drvOpen drvConfig s) <> Fulfilled tt ->
  let s' := state (USB.open drvOpen drvConfig s) in
  USB.endpointIn s' = None
  /\ USB.endpointOut s' = None
  /\ USB.interface s' = USB.interface s
  /\ USB.device s' = USB.device s
  /\ USB.interfaceClass s' = USB.interfaceClass s.
Proof.
  intros Hp s'. subst s'. rewrite open_state. rewrite open_promise in Hp.
  destruct drvOpen as [u | ex]; [| done].
  destruct (ifError drvConfig) as [e |]; [done |].
  by destruct (USB.matching s) as [| iface rest] eqn:Hm.
Qed.

Lemma X8_usb_failed_open_unsets_endpoints_witness :
  USB.endpointIn (opened (usbOn ifaceBulk)) = Some epIn82
  /\ USB.endpointIn
       (state (USB.open (Throws (DriverError "LIBUSB_ERROR_ACCESS")) None
                 (opened (usbOn ifaceBulk)))) = None
  /\ USB.interface
       (state (USB.open (Throws (DriverError "LIBUSB_ERROR_ACCESS")) None
                 (opened (usbOn ifaceBulk)))) = Some ifaceBulk.
Proof.
  split; [reflexivity |].
  destruct (X8_usb_failed_open_unsets_endpoints
              (Throws (DriverError "LIBUSB_ERROR_ACCESS")) None
              (opened (usbOn ifaceBulk))) as (Hin & _ & Hi & _);
    [discriminate |].
  split; [exact Hin | by rewrite Hi].
Defined.

(** X9. Among several interfaces [open] selects the first one, in the
    device's order, whose class is the configured one; interfaces of other
    classes before it and any interface after it play no part. *)
Theorem X9_usb_open_selects_first_match
    s (pre : list Interface.t) iface (post : list Interface.t) :
  Device.interfaces (USB.device s) = pre ++ iface :: post ->
  Forall (λ i, Interface.bInterfaceClass (Interface.descriptor i)
               <> USB.interfaceClass s) pre ->
  Interface.bInterfaceClass (Interface.descriptor iface) = USB.interfaceClass s ->
  promise (USB.open (Returns tt) None s) = Fulfilled tt
  /\ USB.interface (opened s) = Some iface
  /\ USB.endpointIn (opened s) = last (endpointsOf DirIn iface)
  /\ USB.endpointOut (opened s) = last (endpointsOf DirOut iface).
Proof.
  intros Hifs Hpre Hcls.
  assert (Hm : USB.matching s
               = iface :: filter (λ i, Interface.bInterfaceClass
                                         (Interface.descriptor i)
                                       = USB.interfaceClass s) post).
  { unfold USB.matching. rewrite Hifs. by apply filter_first_match. }
  destruct (open_resolves s iface _ Hm) as (Hp & _ & Hi & Hin & Hout).
  by repeat split.
Qed.

Lemma X9_usb_open_selects_first_match_witness :
  USB.interface (opened usbComposite) = Some ifaceOutOnly
  /\ USB.endpointIn (opened usbComposite) = None
  /\ USB.endpointOut (opened usbComposite) = Some epOut03.
Proof.
  destruct (X9_usb_open_selects_first_match usbComposite [ifaceClass3]
              ifaceOutOnly [ifaceBulk] eq_refl) as (_ & Hi & Hin & Hout).
  - constructor; [discriminate | constructor].
  - reflexivity.
  - split; [exact Hi |]. split; [by rewrite Hin | by rewrite Hout].
Defined.

(** X10. After an [open] that resolved, the selected interface is one of
    the device's interfaces and has the configured class, the read endpoint
    (when set) is an IN endpoint of that interface and the write endpoint
    (when set) is an OUT endpoint of that interface. *)
Theorem X10_usb_open_installs_own_endpoints s :
  promise (USB.open (Returns tt) None s) = Fulfilled tt ->
  exists iface,
    USB.interface (opened s) = Some iface
    /\ iface ∈ Device.interfaces (USB.device s)
    /\ Interface.bInterfaceClass (Interface.descriptor iface) = USB.interfaceClass s
    /\ (forall ep, USB.endpointIn (opened s) = Some ep ->
        ep ∈ Interface.endpoints iface /\ Endpoint.direction ep = DirIn)
    /\ (forall ep, USB.endpointOut (opened s) = Some ep ->
        ep ∈ Interface.endpoints iface /\ Endpoint.direction ep = DirOut).
Proof.
  intros Hp.
  destruct (USB.matching s) as [| iface rest] eqn:Hm.
  { rewrite (open_no_match s Hm) in Hp. discriminate. }
  destruct (open_resolves s iface rest Hm) as (_ & _ & Hi & Hin & Hout).
  assert (Hel : iface ∈ USB.matching s) by (rewrite Hm; apply list_elem_of_here).
  apply list_elem_of_filter in Hel as [Hcls Hel].
  assert (Hown : forall (dir : Direction) ep,
             last (endpointsOf dir iface) = Some ep ->
             ep ∈ Interface.endpoints iface /\ Endpoint.direction ep = dir).
  { intros dir ep Hl. apply last_Some_elem_of in Hl.
    by apply list_elem_of_filter in Hl as [? ?]. }
  exists iface. rewrite Hin, Hout. repeat split; try done.
  - by apply (Hown DirIn).
  - by apply (Hown DirIn).
  - by apply (Hown DirOut).
  - by apply (Hown DirOut).
Qed.

Lemma X10_usb_open_installs_own_endpoints_witness :
  exists iface,
    USB.interface (opened (usbOn ifaceBulk)) = Some iface
    /\ iface ∈ Device.interfaces (USB.device (usbOn ifaceBulk))
    /\ Interface.bInterfaceClass (Interface.descriptor iface)
       = USB.interfaceClass (usbOn ifaceBulk)
    /\ (forall ep, USB.endpointIn (opened (usbOn ifaceBulk)) = Some ep ->
        ep ∈ Interface.endpoints iface /\ Endpoint.direction ep = DirIn)
    /\ (forall ep, USB.endpointOut (opened (usbOn ifaceBulk)) = Some ep ->
        ep ∈ Interface.endpoints iface /\ Endpoint.direction ep = DirOut).
Proof. apply (X10_usb_open_installs_own_endpoints (usbOn ifaceBulk)). reflexivity. Defined.

(** X11. Opening again gives the instance of the first [open], directly
    or with a close in between and whatever that close's driver call does:
    nothing of a session survives into the next one. *)
Theorem X11_usb_reopen_same_instance (drvC : SyncResp unit) s :
  opened (opened s) = opened s
  /\ opened (state (USB.close drvC (opened s))) = opened s.
Proof.
  assert (Hclose : state (USB.close drvC (opened s)) = opened s)
    by (by destruct drvC).
  rewrite Hclose.
  cut (opened (opened s) = opened s); [done |].
  destruct (opened_fixed s) as [Hdev Hcls].
  unfold opened at 1. rewrite open_state.
  rewrite (matching_same (opened s) s Hdev Hcls), Hdev, Hcls.
  unfold opened. rewrite open_state.
  by destruct (USB.matching s).
Qed.

(** X12. An [open] that finds a matching interface produces the instance a
    freshly constructed transport on the same device and class would get:
    the interface and endpoints held before play no part. *)
Theorem X12_usb_open_forgets_previous_session s :
  USB.matching s <> [] ->
  opened s = opened (USB.constructor (USB.device s) (Some (USB.interfaceClass s))).
Proof.
  intros Hm. unfold opened. rewrite !open_state.
  rewrite (matching_same (USB.constructor (USB.device s)
                            (Some (USB.interfaceClass s))) s eq_refl eq_refl).
  by destruct (USB.matching s).
Qed.

Lemma X12_usb_open_forgets_previous_session_witness :
  opened (USB.mkUSB (Device.mkDevice [ifaceBare]) 0xFF (Some ifaceBulk)
            (Some epIn81) (Some epOut01))
  = opened (usbOn ifaceBare).
Proof.
  apply (X12_usb_open_forgets_previous_session
           (USB.mkUSB (Device.mkDevice [ifaceBare]) 0xFF (Some ifaceBulk)
              (Some epIn81) (Some epOut01))).
  discriminate.
Defined.

(** The callbacks reject with a truthy error and resolve when the error
    argument is absent or not truthy. *)
Lemma ifError_cases {A} (error : option Err) (onError : Err -> A) (otherwise : A) :
  (forall e, error = Some e -> truthy e = true ->
     match ifError error with Some e' => onError e' | None => otherwise end
     = onError e)
  /\ ((forall e, error = Some e -> truthy e = false) ->
      match ifError error with Some e' => onError e' | None => otherwise end
      = otherwise).
Proof.
  split.
  - intros e -> He. simpl. by rewrite He.
  - intros Hf. destruct error as [e |]; [| done].
    simpl. by rewrite (Hf e eq_refl).
Qed.

(** X13. In a session whose interface has an IN endpoint, every read is one
    transfer on the installed IN endpoint asking for that endpoint's
    [wMaxPacketSize] bytes; it rejects with the callback's error when that
    is a truthy value and resolves with the driver's bytes when the error
    argument is absent or not truthy. *)
Theorem X13_usb_endpoint_read
    s iface (rest : list Interface.t) ops ep (error : option Err)
    (buffer : list byte) :
  USB.matching s = iface :: rest ->
  last (endpointsOf DirIn iface) = Some ep ->
  let s' := fst (USB.run (opened s) ops) in
  calls (USB.read (error, buffer) s')
  = [USB.InTransfer ep (Endpoint.wMaxPacketSize (Endpoint.descriptor ep))]
  /\ (forall e, error = Some e -> truthy e = true ->
      promise (USB.read (error, buffer) s') = Rejected e)
  /\ ((forall e, error = Some e -> truthy e = false) ->
      promise (USB.read (error, buffer) s') = Fulfilled buffer).
Proof.
  intros Hm Hep s'. subst s'. rewrite run_state.
  destruct (open_resolves s iface rest Hm) as (_ & _ & _ & Hin & _).
  unfold USB.read. rewrite Hin, Hep. simpl.
  split; [done |]. apply (ifError_cases error Rejected (Fulfilled buffer)).
Qed.

Lemma X13_usb_endpoint_read_witness :
  calls (USB.read (None, tenBytes)
           (fst (USB.run (opened (usbOn ifaceBulk)) [USB.Read (None, [])])))
  = [USB.InTransfer epIn82 64].
Proof.
  by destruct (X13_usb_endpoint_read (usbOn ifaceBulk) ifaceBulk []
                 [USB.Read (None, [])] epIn82 None tenBytes eq_refl eq_refl)
    as [Hc _].
Defined.

(** X14. In a session whose interface has no OUT endpoint, every write is
    one control transfer, host to device, class request, interface recipient
    (0x21), request 0x09, value 0x0200; its index is the value of the
    [interface] property of the selected interface object ([undefined] when
    the object has no such property) and its data stage is the input's
    ArrayBuffer without its first [min(byteLength, 64)] bytes; the promise
    rejects with the callback's error when that is a truthy value and
    resolves when the error argument is absent or not truthy. *)
Theorem X14_usb_control_write
    s iface (rest : list Interface.t) ops (drv : option Err) data :
  USB.matching s = iface :: rest ->
  endpointsOf DirOut iface = [] ->
  let s' := fst (USB.run (opened s) ops) in
  let arrayBuffer := arrayBufferOf data in
  calls (USB.write drv data s')
  = [USB.ControlTransfer 0x21 0x09 0x0200 (Interface.interface iface)
       (USB.Data (drop (Nat.min (length arrayBuffer) 64) arrayBuffer))]
  /\ (forall e, drv = Some e -> truthy e = true ->
      promise (USB.write drv data s') = Rejected e)
  /\ ((forall e, drv = Some e -> truthy e = false) ->
      promise (USB.write drv data s') = Fulfilled tt).
Proof.
  intros Hm Hno s' arrayBuffer. subst s'. rewrite run_state.
  destruct (open_resolves s iface rest Hm) as (_ & _ & Hi & _ & Hout).
  rewrite Hno in Hout. simpl in Hout.
  unfold USB.write. rewrite Hout, Hi.
  rewrite sliceBuffer_drops_prefix by (unfold USB.PACKET_SIZE; lia).
  cbn [calls promise]. unfold USB.bufferSourceToBuffer, USB.PACKET_SIZE.
  cbn [arrayBufferOf]. fold arrayBuffer.
  replace (Z.to_nat (Z.min (Z.of_nat (length arrayBuffer)) 64))
    with (Nat.min (length arrayBuffer) 64) by lia.
  split; [done |]. apply (ifError_cases drv Rejected (Fulfilled tt)).
Qed.

Lemma X14_usb_control_write_witness :
  calls (USB.write None (ArrayBuffer (tenBytes ++ replicate 60 xff))
           (fst (USB.run (opened (usbOn ifaceBare)) [])))
  = [USB.ControlTransfer 0x21 0x09 0x0200 None (USB.Data (replicate 6 xff))].
Proof.
  by destruct (X14_usb_control_write (usbOn ifaceBare) ifaceBare [] [] None
                 (ArrayBuffer (tenBytes ++ replicate 60 xff)) eq_refl eq_refl)
    as [Hc _].
Defined.

(** X15. In a session whose interface has an OUT endpoint with a packet
    size that is not negative, every write is one transfer on the installed
    OUT endpoint carrying the input's ArrayBuffer without its first
    [min(byteLength, wMaxPacketSize)] bytes, so nothing at all for an
    ArrayBuffer that fits in one packet; the promise rejects with the
    callback's error when that is a truthy value and resolves when the error
    argument is absent or not truthy. *)
Theorem X15_usb_endpoint_write
    s iface (rest : list Interface.t) ops ep (drv : option Err) data :
  USB.matching s = iface :: rest ->
  last (endpointsOf DirOut iface) = Some ep ->
  0 <= Endpoint.wMaxPacketSize (Endpoint.descriptor ep) ->
  let s' := fst (USB.run (opened s) ops) in
  let arrayBuffer := arrayBufferOf data in
  let packetSize := Z.to_nat (Endpoint.wMaxPacketSize (Endpoint.descriptor ep)) in
  calls (USB.write drv data s')
  = [USB.OutTransfer ep (drop (Nat.min (length arrayBuffer) packetSize) arrayBuffer)]
  /\ ((length arrayBuffer <= packetSize)%nat ->
      calls (USB.write drv data s') = [USB.OutTransfer ep []])
  /\ (forall e, drv = Some e -> truthy e = true ->
      promise (USB.write drv data s') = Rejected e)
  /\ ((forall e, drv = Some e -> truthy e = false) ->
      promise (USB.write drv data s') = Fulfilled tt).
Proof.
  intros Hm Hep Hsize s' arrayBuffer packetSize. subst s'. rewrite run_state.
  destruct (open_resolves s iface rest Hm) as (_ & _ & _ & _ & Hout).
  unfold USB.write. rewrite Hout, Hep.
  rewrite sliceBuffer_drops_prefix by done.
  cbn [calls promise]. unfold USB.bufferSourceToBuffer.
  cbn [arrayBufferOf]. fold arrayBuffer.
  replace (Z.to_nat (Z.min (Z.of_nat (length arrayBuffer))
                       (Endpoint.wMaxPacketSize (Endpoint.descriptor ep))))
    with (Nat.min (length arrayBuffer) packetSize) by (subst packetSize; lia).
  split; [done |]. split.
  - intros Hfit. rewrite Nat.min_l by done. by rewrite drop_all.
  - apply (ifError_cases drv Rejected (Fulfilled tt)).
Qed.

Lemma X15_usb_endpoint_write_witness :
  calls (USB.write None (ArrayBuffer tenBytes)
           (fst (USB.run (opened (usbOn ifaceOutOnly)) [])))
  = [USB.OutTransfer epOut03 [x05; x06; x07; x08; x09; x0a]].
Proof.
  destruct (X15_usb_endpoint_write (usbOn ifaceOutOnly) ifaceOutOnly [] []
              epOut03 None (ArrayBuffer tenBytes) eq_refl eq_refl) as [Hc _].
  - simpl. lia.
  - exact Hc.
Defined.

(** X16. On an instance that was constructed but never opened, and on one
    whose first [open] did not resolve, a read and a write are rejected with
    a TypeError before any driver call: there is no interface to address a
    control transfer to. *)
Theorem X16_usb_unopened_instance_rejects
    (d : Device.t) (cls : option Z) (drvOpen : SyncResp unit)
    (drvConfig : option Err) (drvR : option Err * list byte)
    (drvW : option Err) data :
  let s0 := USB.constructor d cls in
  let s1 := state (USB.open drvOpen drvConfig s0) in
  USB.read drvR s0 = mkResult s0 [] (Rejected TypeError)
  /\ USB.write drvW data s0 = mkResult s0 [] (Rejected TypeError)
  /\ (promise (USB.open drvOpen drvConfig s0) <> Fulfilled tt ->
      USB.read drvR s1 = mkResult s1 [] (Rejected TypeError)
      /\ USB.write drvW data s1 = mkResult s1 [] (Rejected TypeError)).
Proof.
  intros s0 s1. split; [done |]. split; [done |].
  intros Hp.
  assert (Hs1 : s1 = s0).
  { subst s1. rewrite open_state. rewrite open_promise in Hp.
    destruct drvOpen as [u | ex]; [| done].
    destruct (ifError drvConfig) as [e |]; [done |].
    by destruct (USB.matching s0) as [| iface rest] eqn:Hm. }
  by rewrite Hs1.
Qed.

(** X17. [close] does not disable the instance: after an [open] that
    resolved and a close, whatever the close's driver call did, a read and a
    write do exactly what they did before the close and still reach the
    driver. *)
Theorem X17_usb_read_write_after_close
    s iface (rest : list Interface.t) (drvC : SyncResp unit)
    (drvR : option Err * list byte) (drvW : option Err) data :
  USB.matching s = iface :: rest ->
  let s' := state (USB.close drvC (opened s)) in
  USB.read drvR s' = USB.read drvR (opened s)
  /\ USB.write drvW data s' = USB.write drvW data (opened s)
  /\ length (calls (USB.read drvR s')) = 1%nat
  /\ length (calls (USB.write drvW data s')) = 1%nat.
Proof.
  intros Hm s'.
  assert (Hs : s' = opened s) by (subst s'; by destruct drvC).
  rewrite Hs.
  destruct (open_resolves s iface rest Hm) as (_ & _ & Hi & _).
  repeat split.
  - unfold USB.read. rewrite Hi. by destruct (USB.endpointIn (opened s)).
  - unfold USB.write. rewrite Hi. by destruct (USB.endpointOut (opened s)).
Qed.

Lemma X17_usb_read_write_after_close_witness :
  calls (USB.read (None, [])
           (state (USB.close (Returns tt) (opened (usbOn ifaceBulk)))))
  = [USB.InTransfer epIn82 64].
Proof.
  destruct (X17_usb_read_write_after_close (usbOn ifaceBulk) ifaceBulk []
              (Returns tt) (None, []) None (ArrayBuffer []) eq_refl)
    as (Hr & _).
  by rewrite Hr.
Defined.

(** X20. When a session was open and a second [open] does not resolve
    (the driver threw or reported a truthy error), the endpoints are gone
    but the interface object of the first session is still selected: reads
    and writes then go out as control transfers, also where the first
    session used endpoint transfers, and the index of the read is the value
    of that object's [interface] property. *)
Theorem X20_usb_failed_reopen_uses_control_transfers
    s iface (rest : list Interface.t) (drvOpen : SyncResp unit)
    (drvConfig : option Err) (drvR : option Err * list byte)
    (drvW : option Err) data :
  USB.matching s = iface :: rest ->
  promise (USB.open drvOpen drvConfig (opened s)) <> Fulfilled tt ->
  let s' := state (USB.open drvOpen drvConfig (opened s)) in
  calls (USB.read drvR s')
  = [USB.ControlTransfer 0xA1 0x01 0x0100 (Interface.interface iface)
       (USB.Length 64)]
  /\ oneCall USB.isControlTransfer (calls (USB.write drvW data s')).
Proof.
  intros Hm Hp s'.
  destruct (open_resolves s iface rest Hm) as (_ & _ & Hi & _).
  destruct (opened_fixed s) as [Hdev Hcls].
  assert (Hs' : USB.endpointIn s' = None /\ USB.endpointOut s' = None
                /\ USB.interface s' = Some iface).
  { assert (Hm' : USB.matching (opened s) = iface :: rest)
      by (by rewrite (matching_same (opened s) s Hdev Hcls)).
    subst s'. rewrite open_state. rewrite open_promise, Hm' in Hp.
    destruct drvOpen as [u | ex]; [| by rewrite <- Hi].
    destruct (ifError drvConfig) as [e |]; [by rewrite <- Hi | done]. }
  destruct Hs' as (Hin & Hout & Hi').
  split.
  - unfold USB.read. by rewrite Hin, Hi'.
  - pose proof (write_mode drvW data s' iface Hi') as Hw.
    by rewrite Hout in Hw.
Qed.

Lemma X20_usb_failed_reopen_uses_control_transfers_witness :
  calls (USB.read (None, []) (opened (usbOn ifaceBulk)))
  = [USB.InTransfer epIn82 64]
  /\ calls (USB.read (None, [])
              (state (USB.open (Returns tt) (Some (DriverError "LIBUSB_ERROR_BUSY"))
                        (opened (usbOn ifaceBulk)))))
     = [USB.ControlTransfer 0xA1 0x01 0x0100 None (USB.Length 64)].
Proof.
  split; [reflexivity |].
  destruct (X20_usb_failed_reopen_uses_control_transfers (usbOn ifaceBulk)
              ifaceBulk [] (Returns tt) (Some (DriverError "LIBUSB_ERROR_BUSY"))
              (None, []) None (ArrayBuffer []) eq_refl) as [Hr _];
    [discriminate | exact Hr].
Defined.

End USBBehaviour.

(** * Reads, in both back ends *)

Section ReadBehaviour.

(** X18. In both back ends a read that reaches the driver makes exactly one
    driver call and leaves the instance unchanged; it rejects with the
    callback's error when that is a truthy value and resolves with the
    driver's bytes, unchanged, when the error argument is absent or not
    truthy. *)
Theorem X18_read_mirrors_driver (error : option Err) (buffer : list byte) :
  (forall (s : HID.t) (d : HID.Device),
      HID.device s = Some d ->
      calls (HID.read (error, buffer) s) = [HID.DeviceRead d]
      /\ state (HID.read (error, buffer) s) = s
      /\ (forall e, error = Some e -> truthy e = true ->
          promise (HID.read (error, buffer) s) = Rejected e)
      /\ ((forall e, error = Some e -> truthy e = false) ->
          promise (HID.read (error, buffer) s) = Fulfilled buffer))
  /\ (forall (s : USB.t),
        calls (USB.read (error, buffer) s) <> [] ->
        length (calls (USB.read (error, buffer) s)) = 1%nat
        /\ state (USB.read (error, buffer) s) = s
        /\ (forall e, error = Some e -> truthy e = true ->
            promise (USB.read (error, buffer) s) = Rejected e)
        /\ ((forall e, error = Some e -> truthy e = false) ->
            promise (USB.read (error, buffer) s) = Fulfilled buffer)).
Proof.
  pose proof (ifError_cases error Rejected (Fulfilled buffer)) as [Hrej Hres].
  split.
  - intros s d Hd.
    assert (Hread : HID.read (error, buffer) s
                    = mkResult s [HID.DeviceRead d]
                        match ifError error with
                        | Some e => Rejected e
                        | None => Fulfilled buffer
                        end).
    { unfold HID.read. rewrite Hd. simpl. by destruct (ifError error). }
    rewrite Hread. simpl.
    split; [done |]. split; [done |]. split; [exact Hrej | exact Hres].
  - intros s Hcall. unfold USB.read, USB.readCallback in *.
    destruct (USB.endpointIn s); simpl.
    + split; [done |]. split; [done |]. split; [exact Hrej | exact Hres].
    + destruct (USB.interface s); [| done]. simpl.
      split; [done |]. split; [done |]. split; [exact Hrej | exact Hres].
Qed.

Lemma X18_read_mirrors_driver_witness :
  promise (HID.read (Some (JsString "could not read from HID device"), []) hidraw0)
  = Rejected (JsString "could not read from HID device")
  /\ promise (HID.read (Some (JsString ""), tenBytes) hidraw0) = Fulfilled tenBytes
  /\ promise (USB.read (Some (JsString ""), tenBytes) (opened (usbOn ifaceBulk)))
     = Fulfilled tenBytes.
Proof.
  destruct (X18_read_mirrors_driver
              (Some (JsString "could not read from HID device")) [])
    as [Hhid _].
  destruct (Hhid hidraw0 (HID.mkDevice "/dev/hidraw0") eq_refl)
    as (_ & _ & Hrej & _).
  destruct (X18_read_mirrors_driver (Some (JsString "")) tenBytes)
    as [Hhid' Husb'].
  destruct (Hhid' hidraw0 (HID.mkDevice "/dev/hidraw0") eq_refl)
    as (_ & _ & _ & Hres).
  destruct (Husb' (opened (usbOn ifaceBulk))) as (_ & _ & _ & Hres');
    [vm_compute; discriminate |].
  split; [by apply Hrej |].
  split; [apply Hres | apply Hres']; by intros e [= <-].
Defined.

End ReadBehaviour.

(** * Listing devices *)

Section ListingBehaviour.

(** X19. [getDevices] returns exactly the driver's entries whose vendor id
    is the requested one, in the driver's order and as often as the driver
    listed them, each with [name] set to its [product]. *)
Theorem X19_getDevices_selects_vendor
    (devices : list Listing.DeviceInfo) (vendorID : Z) :
  (forall n : Listing.Named,
      n ∈ Listing.getDevices devices vendorID
      <-> Listing.info n ∈ devices
          /\ Listing.vendorId (Listing.info n) = vendorID
          /\ Listing.name n = Listing.product (Listing.info n))
  /\ Listing.info <$> Listing.getDevices devices vendorID
     = filter (λ device, Listing.vendorId device = vendorID) devices
  /\ (length (Listing.getDevices devices vendorID) <= length devices)%nat.
Proof.
  unfold Listing.getDevices. split; [| split].
  - intros n. rewrite list_elem_of_fmap. split.
    + intros (device & -> & Hin).
      apply list_elem_of_filter in Hin as [Hv Hin]. by simpl.
    + intros (Hin & Hv & Hname). exists (Listing.info n). split.
      * destruct n as [i nm]. simpl in *. by subst nm.
      * by apply list_elem_of_filter.
  - induction (filter _ devices) as [| device l IH]; [done |].
    rewrite !fmap_cons. cbn [Listing.info]. by rewrite IH.
  - rewrite length_fmap. apply length_filter.
Qed.

Example getDevices_daplink :
  Listing.getDevices [keyboard; daplink; unnamedProbe] 0x0D28
  = [Listing.mkNamed daplink (Some "DAPLink CMSIS-DAP");
     Listing.mkNamed unnamedProbe None].
Proof. reflexivity. Qed.

End ListingBehaviour.
